(** * tsx-mailer: the JSX-to-HTML renderer, address formatting and subject
    resolution, embedded from [src/jsx-runtime.ts], [src/types.ts] and
    [src/mailer.ts].

    Strings are [String.string] (one [ascii] per character).  The source only
    ever inspects characters of the ASCII range (the five escaped characters,
    the comma, [A-Z] and the letters of [<html]); [toLowerCase] is modelled on
    that range and leaves every other character as it is. *)

From Stdlib Require Import String Ascii List Bool Arith Lia.
From Stdlib Require DecimalString.
Import ListNotations.
Open Scope string_scope.
Open Scope bool_scope.

(** ** The methods of [String.prototype] and [Array.prototype] the source uses *)

Module JS.

(** The double quote and the line feed, by their codes. *)
Definition dquote : ascii := ascii_of_nat 34.
Definition linefeed : ascii := ascii_of_nat 10.
Definition backslash : ascii := ascii_of_nat 92.

Definition q : string := String dquote "".
Definition nl : string := String linefeed "".

(** [str.replace(/c/g, rep)] for a regular expression that matches exactly
    one character, given by the class [matches]; [rep] receives the matched
    character (the [$1] of the source's one capturing pattern). *)
Fixpoint replaceAll (matches : ascii -> bool) (rep : ascii -> string)
         (str : string) : string :=
  match str with
  | EmptyString => EmptyString
  | String c rest =>
      (if matches c then rep c else String c EmptyString)
        ++ replaceAll matches rep rest
  end.

(** [str.startsWith(pat)] and [str.includes(pat)]. *)
Fixpoint startsWith (pat str : string) : bool :=
  match pat, str with
  | EmptyString, _ => true
  | String _ _, EmptyString => false
  | String a pat', String b str' => Ascii.eqb a b && startsWith pat' str'
  end.

Fixpoint includes (pat str : string) : bool :=
  startsWith pat str
  || match str with
     | EmptyString => false
     | String _ rest => includes pat rest
     end.

(** The number of positions of [str] at which [pat] occurs, what
    [str.match(/pat/g)?.length] counts for a pattern that cannot overlap
    itself. *)
Fixpoint occurrences (pat str : string) : nat :=
  (if startsWith pat str then 1 else 0)
  + match str with
    | EmptyString => 0
    | String _ rest => occurrences pat rest
    end.

Definition isUpper (c : ascii) : bool :=
  Nat.leb 65 (nat_of_ascii c) && Nat.leb (nat_of_ascii c) 90.

Definition lowerChar (c : ascii) : ascii :=
  if isUpper c then ascii_of_nat (nat_of_ascii c + 32) else c.

(** [str.toLowerCase()], on the ASCII range. *)
Fixpoint toLowerCase (str : string) : string :=
  match str with
  | EmptyString => EmptyString
  | String c rest => String (lowerChar c) (toLowerCase rest)
  end.

(** [arr.join(sep)]. *)
Definition join (sep : string) (arr : list string) : string :=
  String.concat sep arr.

(** [arr.push(x)], as the array after the call. *)
Definition push {A : Type} (arr : list A) (x : A) : list A :=
  (arr ++ [x])%list.

(** [set.has(x)] for a [Set] of strings built from a literal. *)
Definition has (set : list string) (x : string) : bool :=
  existsb (String.eqb x) set.

End JS.

(** ** [src/jsx-runtime.ts] *)

Definition VOID_ELEMENTS : list string :=
  [ "area"; "base"; "br"; "col"; "embed"; "hr"; "img"; "input";
    "link"; "meta"; "param"; "source"; "track"; "wbr" ].

Definition BOOLEAN_ATTRS : list string :=
  [ "disabled"; "checked"; "readonly"; "required"; "hidden";
    "selected"; "multiple"; "autofocus"; "autoplay"; "controls";
    "loop"; "muted"; "open"; "defer"; "async" ].

Definition escapeHtml (str : string) : string :=
  JS.replaceAll (Ascii.eqb "'") (fun _ => "&#39;")
    (JS.replaceAll (Ascii.eqb JS.dquote) (fun _ => "&quot;")
      (JS.replaceAll (Ascii.eqb ">") (fun _ => "&gt;")
        (JS.replaceAll (Ascii.eqb "<") (fun _ => "&lt;")
          (JS.replaceAll (Ascii.eqb "&") (fun _ => "&amp;") str)))).

(** What the specification says of escaping: every character, in order, is
    replaced by its entity when it is one of the five, and kept otherwise. *)
Definition entityOf (c : ascii) : string :=
  if Ascii.eqb c "&" then "&amp;"
  else if Ascii.eqb c "<" then "&lt;"
  else if Ascii.eqb c ">" then "&gt;"
  else if Ascii.eqb c JS.dquote then "&quot;"
  else if Ascii.eqb c "'" then "&#39;"
  else String c EmptyString.

Fixpoint entityEncode (str : string) : string :=
  match str with
  | EmptyString => EmptyString
  | String c rest => entityOf c ++ entityEncode rest
  end.

(** [c] is one of the characters of [s]. *)
Fixpoint hasChar (c : ascii) (s : string) : bool :=
  match s with
  | EmptyString => false
  | String a rest => Ascii.eqb a c || hasChar c rest
  end.

(** What the specification says of a quoted display name: each double quote
    gets a backslash before it. *)
Fixpoint escapeQuotes (name : string) : string :=
  match name with
  | EmptyString => EmptyString
  | String c rest =>
      if Ascii.eqb c JS.dquote
      then String JS.backslash (String JS.dquote (escapeQuotes rest))
      else String c (escapeQuotes rest)
  end.

(** [c] is one of the five characters [escapeHtml] replaces. *)
Definition needsEscape (c : ascii) : bool :=
  Ascii.eqb c "&" || Ascii.eqb c "<" || Ascii.eqb c ">"
  || Ascii.eqb c JS.dquote || Ascii.eqb c "'".

(** Some character of [s] is of the class [p]. *)
Fixpoint anyChar (p : ascii -> bool) (s : string) : bool :=
  match s with
  | EmptyString => false
  | String a rest => p a || anyChar p rest
  end.


(** ** [src/types.ts]: addresses and the records of the mailer *)

(** [type EmailAddress = string | { name: string; email: string }] *)
Inductive EmailAddress : Type :=
| Address (address : string)
| Named (name email : string).

(** [EmailAddress | EmailAddress[]], the type of [to], [cc] and [bcc]. *)
Inductive Recipients : Type :=
| Single (address : EmailAddress)
| Several (addresses : list EmailAddress).

Definition formatEmailAddress (address : EmailAddress) : string :=
  match address with
  | Address s => s
  | Named name email =>
      let name' :=
        if JS.includes "," name || JS.includes JS.q name
        then JS.q
             ++ JS.replaceAll (Ascii.eqb JS.dquote)
                  (fun _ => String JS.backslash JS.q) name
             ++ JS.q
        else name in
      name' ++ " <" ++ email ++ ">"
  end.

Definition formatEmailAddresses (addresses : Recipients) : string :=
  let arr := match addresses with
             | Several l => l
             | Single a => [a]
             end in
  JS.join ", " (map formatEmailAddress arr).

Module MailerConfig.
(** The [smtp] field only feeds the transport, which is a parameter below. *)
Record t : Type := mk {
  defaultFrom : option EmailAddress;
  subjectPrefix : option string;
  subjectSuffix : option string
}.
End MailerConfig.

Module EmailOptions.
Record t (TProps : Type) : Type := mk {
  to : Recipients;
  subject : option string;
  from : option EmailAddress;
  cc : option Recipients;
  bcc : option Recipients;
  replyTo : option EmailAddress;
  props : TProps
}.
Arguments mk {TProps}.
Arguments to {TProps}.
Arguments subject {TProps}.
Arguments from {TProps}.
Arguments cc {TProps}.
Arguments bcc {TProps}.
Arguments replyTo {TProps}.
Arguments props {TProps}.
End EmailOptions.

Module EmailMeta.
Record t : Type := mk {
  subject : option string;
  from : option EmailAddress;
  replyTo : option EmailAddress
}.
End EmailMeta.

Module CompiledEmail.
Record t : Type := mk {
  html : string;
  text : string;
  meta : option EmailMeta.t
}.
End CompiledEmail.

(** The message descriptor handed to [transporter.sendMail]. *)
Module Message.
Record t : Type := mk {
  from : option string;
  to : string;
  cc : option string;
  bcc : option string;
  replyTo : option string;
  subject : string;
  html : string;
  text : string
}.
End Message.

Module SendResult.
Record t : Type := mk {
  messageId : string;
  accepted : list string;
  rejected : list string
}.
End SendResult.

(** A thrown [Error], by its message. *)
Inductive Error : Type := mkError (message : string).

(** Truthiness of the values the source tests with [?:] and [!]. *)
Definition truthyString (s : string) : bool := negb (s =? "").

Definition truthyAddress (a : EmailAddress) : bool :=
  match a with
  | Address s => truthyString s
  | Named _ _ => true
  end.

Definition truthyRecipients (r : Recipients) : bool :=
  match r with
  | Single a => truthyAddress a
  | Several _ => true
  end.

(** [x ?? y] *)
Definition nullish {A : Type} (x y : option A) : option A :=
  match x with
  | Some v => Some v
  | None => y
  end.

Infix "??" := nullish (at level 61, left associativity).

(** [all [o1; ...; on]] is the list of the results when every one is there. *)
Fixpoint all {A : Type} (l : list (option A)) : option (list A) :=
  match l with
  | [] => Some []
  | o :: rest =>
      match o, all rest with
      | Some x, Some xs => Some (x :: xs)
      | _, _ => None
      end
  end.

(** An optional property of an object literal: not written, written with
    [undefined], or written with a value.  [Object.keys] counts the last
    two. *)
Inductive Field (A : Type) : Type :=
| Missing
| Undefined
| Given (value : A).

Arguments Missing {A}.
Arguments Undefined {A}.
Arguments Given {A}.

Definition isKey {A : Type} (f : Field A) : bool :=
  match f with
  | Missing => false
  | _ => true
  end.

(** The value read back from the property. *)
Definition valueOf {A : Type} (f : Field A) : option A :=
  match f with
  | Given v => Some v
  | _ => None
  end.

(** The argument of [email], [src/template.ts]; [VNode] is the type of
    nodes. *)
Module EmailInput.
Record t (VNode : Type) : Type := mk {
  body : VNode;
  subject : Field string;
  from : Field EmailAddress;
  replyTo : Field EmailAddress
}.
Arguments mk {VNode}.
Arguments body {VNode}.
Arguments subject {VNode}.
Arguments from {VNode}.
Arguments replyTo {VNode}.
End EmailInput.

(** The argument of [sendRaw]. *)
Module RawOptions.
Record t : Type := mk {
  to : Recipients;
  subject : string;
  html : string;
  text : option string;
  from : option EmailAddress;
  cc : option Recipients;
  bcc : option Recipients;
  replyTo : option EmailAddress
}.
End RawOptions.

(** ** [src/jsx-runtime.ts]: nodes and the renderer

    JavaScript numbers are a parameter [number] with their [String(n)]; a
    function held in a node is a value of the parameter [component], and
    [invoke f props children] is the call [f({ ...props, children })]. *)

Set Warnings "-register-all".

Section Runtime.

Context {number component : Type}.

(** The values of a [style] object, [string | number]. *)
Inductive StyleValue : Type :=
| SString (s : string)
| SNumber (n : number).

(** A property value ([unknown] in the source), by what [renderAttrs] can
    tell apart.  An object is given by its [Object.entries]. *)
Inductive PropValue : Type :=
| PString (s : string)
| PNumber (n : number)
| PBoolean (b : bool)
| PNull
| PUndefined
| PObject (entries : list (string * StyleValue))
| POther.

(** [Record<string, unknown>], as the sequence [Object.entries] walks. *)
Definition Props : Type := list (string * PropValue).

Inductive NodeType : Type :=
| Tag (name : string)
| Fn (f : component).

Inductive VNode : Type :=
| mkVNode (type : NodeType) (props : Props) (children : list Child)
with Child : Type :=
| CString (s : string)
| CNumber (n : number)
| CBoolean (b : bool)
| CNull
| CUndefined
| CVNode (v : VNode)
| CArray (a : list Child).

(** The argument of [renderToString] and [render]:
    [VNode | string | number | null | undefined]. *)
Inductive Renderable : Type :=
| RNull
| RUndefined
| RString (s : string)
| RNumber (n : number)
| RVNode (v : VNode).

Context (stringOfNumber : number -> string)
        (invoke : component -> Props -> list Child -> VNode).

Definition skippedKey (key : string) : bool :=
  (key =? "children") || (key =? "key") || (key =? "ref").

Definition attrNameOf (key : string) : string :=
  if key =? "className" then "class" else key.

(** [k.replace(/([A-Z])/g, '-$1').toLowerCase()] *)
Definition cssKeyOf (k : string) : string :=
  JS.toLowerCase
    (JS.replaceAll JS.isUpper (fun c => String "-" (String c "")) k).

Definition styleValueText (v : StyleValue) : string :=
  match v with
  | SString s => s
  | SNumber n => stringOfNumber n
  end.

Definition styleStr (entries : list (string * StyleValue)) : string :=
  JS.join "; "
    (map (fun '(k, v) => cssKeyOf k ++ ": " ++ styleValueText v) entries).

(** [value === false || value === null || value === undefined] *)
Definition isFalseOrNullish (value : PropValue) : bool :=
  match value with
  | PBoolean false | PNull | PUndefined => true
  | _ => false
  end.

(** [value === true] *)
Definition isTrue (value : PropValue) : bool :=
  match value with
  | PBoolean true => true
  | _ => false
  end.

(** One turn of the loop of [renderAttrs] over [Object.entries(props)]. *)
Definition renderAttrsStep (attrs : list string)
           (entry : string * PropValue) : list string :=
  let '(key, value) := entry in
  if skippedKey key then attrs
  else if isFalseOrNullish value then attrs
  else
    let attrName := attrNameOf key in
    if JS.has BOOLEAN_ATTRS attrName && isTrue value
    then JS.push attrs attrName
    else
      match value with
      | PString s =>
          JS.push attrs (attrName ++ "=" ++ JS.q ++ escapeHtml s ++ JS.q)
      | PNumber n =>
          JS.push attrs
            (attrName ++ "=" ++ JS.q
               ++ escapeHtml (stringOfNumber n) ++ JS.q)
      | PObject entries =>
          if attrName =? "style"
          then JS.push attrs
                 ("style=" ++ JS.q ++ escapeHtml (styleStr entries) ++ JS.q)
          else attrs
      | _ => attrs
      end.

Definition renderAttrs (props : Props) : string :=
  let attrs := fold_left renderAttrsStep props [] in
  if Nat.ltb 0 (List.length attrs) then " " ++ JS.join " " attrs else "".

(** [renderChildren] and [renderToString] call each other and the
    components; [fuel] bounds the depth of the calls, and [None] is a
    render that needs more. *)
Fixpoint renderChildren (fuel : nat) (children : list Child)
         {struct fuel} : option string :=
  match fuel with
  | O => None
  | S fuel' =>
      option_map (JS.join "")
        (all (map (fun child =>
                     match child with
                     | CNull | CUndefined | CBoolean _ => Some ""
                     | CString s => Some (escapeHtml s)
                     | CNumber n => Some (stringOfNumber n)
                     | CArray a => renderChildren fuel' a
                     | CVNode v => renderToString fuel' (RVNode v)
                     end) children))
  end
with renderToString (fuel : nat) (node : Renderable)
     {struct fuel} : option string :=
  match fuel with
  | O => None
  | S fuel' =>
      match node with
      | RNull | RUndefined => Some ""
      | RString s => Some (escapeHtml s)
      | RNumber n => Some (escapeHtml (stringOfNumber n))
      | RVNode (mkVNode (Fn f) props children) =>
          renderToString fuel' (RVNode (invoke f props children))
      | RVNode (mkVNode (Tag type) props children) =>
          let attrs := renderAttrs props in
          match renderChildren fuel' children with
          | None => None
          | Some childrenHtml =>
              if JS.has VOID_ELEMENTS type
              then Some ("<" ++ type ++ attrs ++ " />")
              else Some ("<" ++ type ++ attrs ++ ">"
                             ++ childrenHtml ++ "</" ++ type ++ ">")
          end
      end
  end.

(** [Fragment(props)]; [children] is [props.children]. *)
Definition Fragment (children : option (list Child)) : VNode :=
  mkVNode (Tag "fragment") []
    match children with
    | Some c => c
    | None => []
    end.

Definition originalRenderToString := renderToString.

Definition render (fuel : nat) (node : Renderable) : option string :=
  match node with
  | RVNode (mkVNode (Tag type) _ children) =>
      if type =? "fragment"
      then renderChildren fuel children
      else originalRenderToString fuel node
  | _ => originalRenderToString fuel node
  end.

(** The [props] object handed to [jsx], as the destructuring
    [{ children, ...rest }] splits it: the value under [children] when the
    key is there, and the other entries in their order. *)
Record JsxProps : Type := mkJsxProps {
  jsxChildren : option Child;
  jsxRest : Props
}.

(** [children === undefined ? [] : Array.isArray(children) ? children
    : [children]] *)
Definition childArrayOf (children : option Child) : list Child :=
  match children with
  | None | Some CUndefined => []
  | Some (CArray a) => a
  | Some c => [c]
  end.

(** [{ ...rest, key }]: the entry [key] takes the new value where it
    stands, and goes last when [rest] has none. *)
Fixpoint withKey (rest : Props) (key : PropValue) : Props :=
  match rest with
  | [] => [("key", key)]
  | (k, v) :: rest' =>
      if k =? "key"
      then ("key", key) :: rest'
      else (k, v) :: withKey rest' key
  end.

Definition jsx (type : NodeType) (props : option JsxProps)
           (key : option string) : VNode :=
  let '(children, rest) :=
    match props with
    | Some p => (jsxChildren p, jsxRest p)
    | None => (None, [])
    end in
  let childArray := childArrayOf children in
  mkVNode type
    (withKey rest match key with
                  | Some k => PString k
                  | None => PUndefined
                  end)
    childArray.

Definition jsxs := jsx.
Definition jsxDEV := jsx.

(** *** What the statements below speak of *)

(** What one entry adds to the array [attrs]. *)
Definition pushed (entry : string * PropValue) : list string :=
  renderAttrsStep [] entry.

(** The attributes [renderAttrs] joins: the array after the loop. *)
Definition emitted (props : Props) : list string := flat_map pushed props.

(** The depth of calls a tree without components needs, and the trees
    without components. *)
Fixpoint vnodeFuel (v : VNode) : nat :=
  match v with
  | mkVNode _ _ children => S (S (list_max (map childFuel children)))
  end
with childFuel (c : Child) : nat :=
  match c with
  | CVNode v => vnodeFuel v
  | CArray a => S (list_max (map childFuel a))
  | _ => 0
  end.

Fixpoint intrinsicOnly (v : VNode) : bool :=
  match v with
  | mkVNode (Tag _) _ children => forallb intrinsicOnlyChild children
  | mkVNode (Fn _) _ _ => false
  end
with intrinsicOnlyChild (c : Child) : bool :=
  match c with
  | CVNode v => intrinsicOnly v
  | CArray a => forallb intrinsicOnlyChild a
  | _ => true
  end.

End Runtime.

(** ** [src/mailer.ts]

    The two collaborators are parameters: [convert] is [html-to-text] under
    the options [renderText] fixes, and [sendMail] is the transport, which
    returns its receipt or rejects with an error. *)

Section Mailer.

Context {number component : Type}.
Context (stringOfNumber : number -> string)
        (invoke : component -> @Props number -> list (@Child number component)
                  -> @VNode number component).
Context (convert : string -> string)
        (sendMail : Message.t -> Error + SendResult.t).

Local Abbreviation VNode := (@VNode number component).

(** [TemplateResult] and the result of a template, [VNode | TemplateResult];
    [isTemplateResult] is the case analysis. *)
Record TemplateResult : Type := mkTemplateResult {
  body : VNode;
  meta : option EmailMeta.t
}.

Inductive TemplateOutput : Type :=
| OfVNode (v : VNode)
| OfTemplateResult (r : TemplateResult).

Definition EmailTemplate (TProps : Type) : Type := TProps -> TemplateOutput.

Definition isTemplateResult (result : TemplateOutput) : bool :=
  match result with
  | OfTemplateResult _ => true
  | OfVNode _ => false
  end.

Variable config : MailerConfig.t.

Definition formatSubject (subject : string) : string :=
  let prefix := match MailerConfig.subjectPrefix config with
                | Some p => p
                | None => ""
                end in
  let suffix := match MailerConfig.subjectSuffix config with
                | Some s => s
                | None => ""
                end in
  prefix ++ subject ++ suffix.

Definition doctype : string := "<!DOCTYPE html>" ++ JS.nl.

(** The template literal of [renderHtml], line by line. *)
Definition wrapperHead : string :=
  "<!DOCTYPE html>" ++ JS.nl
  ++ "<html>" ++ JS.nl
  ++ "<head>" ++ JS.nl
  ++ "  <meta charset=" ++ JS.q ++ "utf-8" ++ JS.q ++ ">" ++ JS.nl
  ++ "  <meta name=" ++ JS.q ++ "viewport" ++ JS.q
  ++ " content=" ++ JS.q ++ "width=device-width, initial-scale=1.0" ++ JS.q
  ++ ">" ++ JS.nl
  ++ "</head>" ++ JS.nl
  ++ "<body>" ++ JS.nl.

Definition wrapperTail : string :=
  JS.nl ++ "</body>" ++ JS.nl ++ "</html>".

Definition renderHtml (fuel : nat) (vnode : VNode) : option string :=
  match render stringOfNumber invoke fuel (RVNode vnode) with
  | None => None
  | Some body =>
      if JS.includes "<html" (JS.toLowerCase body)
      then Some (doctype ++ body)
      else Some (wrapperHead ++ body ++ wrapperTail)
  end.

Definition renderText (html : string) : string := convert html.

Definition compile {TProps : Type} (fuel : nat)
           (template : EmailTemplate TProps) (props : TProps)
  : option CompiledEmail.t :=
  match template props with
  | OfTemplateResult result =>
      match renderHtml fuel (body result) with
      | None => None
      | Some html =>
          let text := renderText html in
          Some (CompiledEmail.mk html text (meta result))
      end
  | OfVNode result =>
      match renderHtml fuel result with
      | None => None
      | Some html =>
          let text := renderText html in
          Some (CompiledEmail.mk html text None)
      end
  end.

(** What a call of [send] did: the messages handed to [sendMail], in
    order, and the value it resolved to or the error it rejected with. *)
Record Outcome : Type := mkOutcome {
  sent : list Message.t;
  result : Error + SendResult.t
}.

(** [meta?.field] *)
Definition optionalChain {A : Type} (meta : option EmailMeta.t)
           (field : EmailMeta.t -> option A) : option A :=
  match meta with
  | Some m => field m
  | None => None
  end.

(** [x ? f(x) : undefined] *)
Definition whenTruthy {A : Type} (truthy : A -> bool) (f : A -> string)
           (x : option A) : option string :=
  match x with
  | Some v => if truthy v then Some (f v) else None
  | None => None
  end.

Definition subjectRequired : Error :=
  mkError
    "Email subject is required. Provide it in options or template metadata.".

Definition send {TProps : Type} (fuel : nat)
           (template : EmailTemplate TProps)
           (options : EmailOptions.t TProps) : option Outcome :=
  match compile fuel template (EmailOptions.props options) with
  | None => None
  | Some compiled =>
      let html := CompiledEmail.html compiled in
      let text := CompiledEmail.text compiled in
      let meta := CompiledEmail.meta compiled in
      let from := EmailOptions.from options
                  ?? optionalChain meta EmailMeta.from
                  ?? MailerConfig.defaultFrom config in
      let rawSubject := EmailOptions.subject options
                        ?? optionalChain meta EmailMeta.subject in
      match rawSubject with
      | None => Some (mkOutcome [] (inl subjectRequired))
      | Some rawSubject =>
          if negb (truthyString rawSubject)
          then Some (mkOutcome [] (inl subjectRequired))
          else
            let subject := formatSubject rawSubject in
            let replyTo := EmailOptions.replyTo options
                           ?? optionalChain meta EmailMeta.replyTo in
            let message :=
              Message.mk
                (whenTruthy truthyAddress formatEmailAddress from)
                (formatEmailAddresses (EmailOptions.to options))
                (whenTruthy truthyRecipients formatEmailAddresses
                   (EmailOptions.cc options))
                (whenTruthy truthyRecipients formatEmailAddresses
                   (EmailOptions.bcc options))
                (whenTruthy truthyAddress formatEmailAddress replyTo)
                subject html text in
            match sendMail message with
            | inl e => Some (mkOutcome [message] (inl e))
            | inr info =>
                Some (mkOutcome [message]
                        (inr (SendResult.mk (SendResult.messageId info)
                                (SendResult.accepted info)
                                (SendResult.rejected info))))
            end
      end
  end.

Definition sendRaw (options : RawOptions.t) : Outcome :=
  let from := RawOptions.from options ?? MailerConfig.defaultFrom config in
  let subject := formatSubject (RawOptions.subject options) in
  let message :=
    Message.mk
      (whenTruthy truthyAddress formatEmailAddress from)
      (formatEmailAddresses (RawOptions.to options))
      (whenTruthy truthyRecipients formatEmailAddresses
         (RawOptions.cc options))
      (whenTruthy truthyRecipients formatEmailAddresses
         (RawOptions.bcc options))
      (whenTruthy truthyAddress formatEmailAddress
         (RawOptions.replyTo options))
      subject
      (RawOptions.html options)
      match RawOptions.text options with
      | Some text => text
      | None => renderText (RawOptions.html options)
      end in
  match sendMail message with
  | inl e => mkOutcome [message] (inl e)
  | inr info =>
      mkOutcome [message]
        (inr (SendResult.mk (SendResult.messageId info)
                (SendResult.accepted info)
                (SendResult.rejected info)))
  end.

(** [email(options)], [src/template.ts]: [meta] is what is left of
    [options] without [body], or [undefined] when no key is left. *)
Definition email (options : EmailInput.t VNode) : TemplateResult :=
  let keys :=
    (if isKey (EmailInput.subject options) then 1 else 0)
    + (if isKey (EmailInput.from options) then 1 else 0)
    + (if isKey (EmailInput.replyTo options) then 1 else 0) in
  mkTemplateResult (EmailInput.body options)
    (if Nat.ltb 0 keys
     then Some (EmailMeta.mk (valueOf (EmailInput.subject options))
                  (valueOf (EmailInput.from options))
                  (valueOf (EmailInput.replyTo options)))
     else None).

(** *** What the statements below speak of *)

(** C4 as the specification states it: the document holds [<html] once. *)
Definition holdsHtmlOnce (fuel : nat) (vnode : VNode) : Prop :=
  forall html,
    renderHtml fuel vnode = Some html -> JS.occurrences "<html" html = 1.

(** The subject the specification resolves: the one of the options, else
    the one of the template's metadata. *)
Definition resolvedSubject {TProps : Type} (options : EmailOptions.t TProps)
           (meta : option EmailMeta.t) : option string :=
  match EmailOptions.subject options with
  | Some subject => Some subject
  | None =>
      match meta with
      | Some m => EmailMeta.subject m
      | None => None
      end
  end.

Definition affix (configured : option string) : string :=
  match configured with
  | Some a => a
  | None => ""
  end.

Definition templateMeta (out : TemplateOutput)
  : option EmailMeta.t :=
  match out with
  | OfTemplateResult r => meta r
  | OfVNode _ => None
  end.

(** [send] handed exactly one message to the transport, with this subject. *)
Definition transmits (outcome : option Outcome) (subject : string) : Prop :=
  exists o message,
    outcome = Some o
    /\ sent o = [message]
    /\ Message.subject message = subject.

(** [send] rejected with the subject error and the transport was not
    called. *)
Definition failsBeforeTransport (outcome : option Outcome) : Prop :=
  outcome = Some (mkOutcome [] (inl subjectRequired)).

(** C3 as the specification states it. *)
Definition subjectRule {TProps : Type} (fuel : nat)
           (template : EmailTemplate TProps)
           (options : EmailOptions.t TProps) : Prop :=
  match resolvedSubject options
          (templateMeta (template (EmailOptions.props options))) with
  | None => failsBeforeTransport (send fuel template options)
  | Some subject =>
      transmits (send fuel template options)
        (affix (MailerConfig.subjectPrefix config)
           ++ subject ++ affix (MailerConfig.subjectSuffix config))
  end.

End Mailer.

(** ** An instance

    Numbers are the naturals with their decimal writing; the components are
    [Fragment] itself, as JSX passes it to [jsx], and one that greets;
    the transport accepts every message. *)

Module Demo.

Definition stringOfNumber (n : nat) : string :=
  DecimalString.NilEmpty.string_of_uint (Nat.to_uint n).

Inductive component : Type :=
| FragmentFn
| Greeting.

Definition invoke (f : component) (props : @Props nat)
           (children : list (@Child nat component)) : @VNode nat component :=
  match f with
  | FragmentFn => Fragment (Some children)
  | Greeting => mkVNode (Tag "h1") [] [CString "Hello"]
  end.

Definition element (type : string) (props : @Props nat)
           (children : list (@Child nat component)) : @VNode nat component :=
  mkVNode (Tag type) props children.

Definition convert (html : string) : string := html.

Definition sendMail (message : Message.t) : Error + SendResult.t :=
  inr (SendResult.mk "<1@example.com>" [Message.to message] []).

Definition config : MailerConfig.t :=
  MailerConfig.mk None (Some "[App] ") None.

Definition render := render stringOfNumber invoke.
Definition renderToString := renderToString stringOfNumber invoke.
Definition renderChildren := renderChildren stringOfNumber invoke.
Definition renderAttrs := renderAttrs stringOfNumber.
Definition renderHtml := renderHtml stringOfNumber invoke.
Definition send {TProps : Type} :=
  @send nat component stringOfNumber invoke convert sendMail config TProps.

(** [<html><html></html></html>] *)
Definition nestedHtml : @VNode nat component :=
  element "html" [] [CVNode (element "html" [] [])].

(** A template with a subject of its own, and one with none. *)
Definition withSubject : EmailTemplate unit :=
  fun _ =>
    OfTemplateResult
      (mkTemplateResult (element "p" [] [CString "Test"])
         (Some (EmailMeta.mk (Some "From Template") None None))).

Definition bare : EmailTemplate unit :=
  fun _ => OfVNode (element "p" [] [CString "Test"]).

Definition optionsWith (subject : option string) : EmailOptions.t unit :=
  EmailOptions.mk (Single (Address "recipient@example.com")) subject
    None None None None tt.

End Demo.

(** * Properties *)

Example escapeHtml_script :
  escapeHtml ("<script>alert(" ++ JS.q ++ "xss" ++ JS.q ++ ")</script>")
  = "&lt;script&gt;alert(&quot;xss&quot;)&lt;/script&gt;".
Proof. reflexivity. Qed.

Example escapeHtml_amp_entity : escapeHtml "a&lt;b's" = "a&amp;lt;b&#39;s".
Proof. reflexivity. Qed.


(** ** Strings *)

Module StringFacts.

Lemma append_nil_r (s : string) : s ++ "" = s.
Proof. induction s as [|c s IH]; simpl; [reflexivity | now rewrite IH]. Qed.

Lemma append_assoc (a b c : string) : (a ++ b) ++ c = a ++ (b ++ c).
Proof. induction a as [|x a IH]; simpl; [reflexivity | now rewrite IH]. Qed.

Lemma replaceAll_app (matches : ascii -> bool) (rep : ascii -> string)
      (a b : string) :
  JS.replaceAll matches rep (a ++ b)
  = JS.replaceAll matches rep a ++ JS.replaceAll matches rep b.
Proof.
  induction a as [|x a IH]; simpl; [reflexivity|].
  now rewrite IH, append_assoc.
Qed.

Lemma toLowerCase_app (a b : string) :
  JS.toLowerCase (a ++ b) = JS.toLowerCase a ++ JS.toLowerCase b.
Proof. induction a as [|x a IH]; simpl; [reflexivity | now rewrite IH]. Qed.

Lemma startsWith_app (pat rest : string) :
  JS.startsWith pat (pat ++ rest) = true.
Proof.
  induction pat as [|x pat IH]; simpl; [reflexivity|].
  now rewrite Ascii.eqb_refl, IH.
Qed.

Lemma startsWith_inv (pat str : string) :
  JS.startsWith pat str = true -> exists rest, str = pat ++ rest.
Proof.
  revert str; induction pat as [|x pat IH]; intros str H.
  - now exists str.
  - destruct str as [|y str]; simpl in H; [discriminate|].
    apply andb_true_iff in H as [Hxy H].
    apply Ascii.eqb_eq in Hxy; subst y.
    destruct (IH _ H) as [rest ->].
    now exists rest.
Qed.

(** An occurrence that starts in [s] cannot run into what follows when the
    next character is not one of the pattern. *)
Lemma startsWith_before (pat s : string) (x : ascii) (t : string) :
  hasChar x pat = false ->
  JS.startsWith pat (s ++ String x t) = true ->
  JS.startsWith pat s = true.
Proof.
  revert s; induction pat as [|a pat IH]; intros s Hx H; [reflexivity|].
  simpl in Hx. apply orb_false_iff in Hx as [Hax Hpat].
  destruct s as [|b s]; simpl in H |- *.
  - now rewrite Hax in H.
  - apply andb_true_iff in H as [Hab H].
    now rewrite Hab, (IH s Hpat H).
Qed.

Lemma join_singleton (sep x : string) : JS.join sep [x] = x.
Proof. reflexivity. Qed.

Lemma join_cons2 (sep x y : string) (l : list string) :
  JS.join sep (x :: y :: l) = x ++ sep ++ JS.join sep (y :: l).
Proof. reflexivity. Qed.

Lemma join_empty_sep_app (l1 l2 : list string) :
  JS.join "" (l1 ++ l2) = JS.join "" l1 ++ JS.join "" l2.
Proof.
  induction l1 as [|x l1 IH]; simpl; [reflexivity|].
  destruct l1 as [|y l1].
  - destruct l2 as [|z l2]; simpl; [now rewrite append_nil_r | reflexivity].
  - simpl in *. now rewrite IH, append_assoc.
Qed.

End StringFacts.

(** ** Escaping *)

Lemma escapeHtml_app (a b : string) :
  escapeHtml (a ++ b) = escapeHtml a ++ escapeHtml b.
Proof.
  unfold escapeHtml.
  now rewrite !StringFacts.replaceAll_app.
Qed.

Lemma escapeHtml_char (c : ascii) :
  escapeHtml (String c "") = entityOf c.
Proof.
  destruct c as [b0 b1 b2 b3 b4 b5 b6 b7].
  destruct b0, b1, b2, b3, b4, b5, b6, b7; reflexivity.
Qed.

Lemma escapeHtml_entityEncode (s : string) : escapeHtml s = entityEncode s.
Proof.
  induction s as [|c s IH]; [reflexivity|].
  change (String c s) with (String c "" ++ s).
  rewrite escapeHtml_app, escapeHtml_char, IH.
  reflexivity.
Qed.

(** ** The renderer *)

Section RuntimeFacts.

Context {number component : Type}.
Context (stringOfNumber : number -> string)
        (invoke : component -> @Props number -> list (@Child number component)
                  -> @VNode number component).

Local Abbreviation Child := (@Child number component).
Local Abbreviation VNode := (@VNode number component).
Local Abbreviation Renderable := (@Renderable number component).
Local Abbreviation renderAttrsStep := (renderAttrsStep stringOfNumber).
Local Abbreviation renderAttrs := (renderAttrs stringOfNumber).
Local Abbreviation pushed := (pushed stringOfNumber).
Local Abbreviation emitted := (emitted stringOfNumber).
Local Abbreviation renderChildren := (renderChildren stringOfNumber invoke).
Local Abbreviation renderToString := (renderToString stringOfNumber invoke).
Local Abbreviation render := (render stringOfNumber invoke).

Lemma renderAttrsStep_pushed attrs entry :
  renderAttrsStep attrs entry = (attrs ++ pushed entry)%list.
Proof.
  unfold pushed, renderAttrsStep, JS.push.
  destruct entry as [key value].
  destruct (skippedKey key); [now rewrite app_nil_r|].
  destruct (isFalseOrNullish value); [now rewrite app_nil_r|].
  destruct (JS.has BOOLEAN_ATTRS (attrNameOf key) && isTrue value);
    [reflexivity|].
  destruct value; try reflexivity; try now rewrite app_nil_r.
  destruct (attrNameOf key =? "style"); [reflexivity | now rewrite app_nil_r].
Qed.

Lemma fold_renderAttrsStep props attrs :
  fold_left renderAttrsStep props attrs
  = (attrs ++ flat_map pushed props)%list.
Proof.
  revert attrs; induction props as [|entry props IH]; intros attrs; simpl.
  - now rewrite app_nil_r.
  - now rewrite IH, renderAttrsStep_pushed, <- app_assoc.
Qed.

Lemma renderAttrs_emitted props :
  renderAttrs props
  = match emitted props with
    | [] => ""
    | attrs => " " ++ JS.join " " attrs
    end.
Proof.
  unfold renderAttrs.
  rewrite fold_renderAttrsStep; simpl.
  fold (emitted props).
  now destruct (emitted props).
Qed.

Lemma emitted_app props1 props2 :
  emitted (props1 ++ props2)%list = (emitted props1 ++ emitted props2)%list.
Proof. apply flat_map_app. Qed.

Lemma renderChildren_S fuel children :
  renderChildren (S fuel) children
  = option_map (JS.join "")
      (all (map (fun child =>
                   match child with
                   | CNull | CUndefined | CBoolean _ => Some ""
                   | CString s => Some (escapeHtml s)
                   | CNumber n => Some (stringOfNumber n)
                   | CArray a => renderChildren fuel a
                   | CVNode v => renderToString fuel (RVNode v)
                   end) children)).
Proof. reflexivity. Qed.

Lemma renderToString_tag fuel type props children :
  renderToString (S fuel) (RVNode (mkVNode (Tag type) props children))
  = match renderChildren fuel children with
    | None => None
    | Some childrenHtml =>
        if JS.has VOID_ELEMENTS type
        then Some ("<" ++ type ++ renderAttrs props ++ " />")
        else Some ("<" ++ type ++ renderAttrs props ++ ">"
                       ++ childrenHtml ++ "</" ++ type ++ ">")
    end.
Proof. reflexivity. Qed.

Lemma renderToString_fn fuel f props children :
  renderToString (S fuel) (RVNode (mkVNode (Fn f) props children))
  = renderToString fuel (RVNode (invoke f props children)).
Proof. reflexivity. Qed.

(** C1: a text leaf, through [renderChildren], [renderToString] and
    [render], and a string attribute value, through [renderAttrs], come out
    with each character of the five replaced by its entity and every other
    character kept: one pass, so an ampersand written by a replacement is
    never escaped again. *)
Theorem text_and_attribute_escaped_once (fuel : nat) (key s : string) :
  escapeHtml s = entityEncode s
  /\ renderChildren (S fuel) [CString s] = Some (entityEncode s)
  /\ renderToString (S fuel) (RString s) = Some (entityEncode s)
  /\ render (S fuel) (RString s) = Some (entityEncode s)
  /\ renderAttrs [(key, PString s)]
     = if skippedKey key then ""
       else " " ++ attrNameOf key ++ "=" ++ JS.q ++ entityEncode s ++ JS.q.
Proof.
  repeat split.
  - apply escapeHtml_entityEncode.
  - rewrite renderChildren_S.
    cbn [map all option_map].
    now rewrite StringFacts.join_singleton, escapeHtml_entityEncode.
  - change (renderToString (S fuel) (RString s)) with (Some (escapeHtml s)). now rewrite escapeHtml_entityEncode.
  - unfold render, originalRenderToString.
    change (renderToString (S fuel) (RString s)) with (Some (escapeHtml s)). now rewrite escapeHtml_entityEncode.
  - rewrite renderAttrs_emitted.
    unfold emitted, pushed, renderAttrsStep; simpl.
    destruct (skippedKey key); [reflexivity|].
    rewrite andb_false_r; simpl.
    now rewrite escapeHtml_entityEncode.
Qed.

(** *** Attributes *)

Lemma has_In (set : list string) (x : string) :
  JS.has set x = true <-> In x set.
Proof.
  unfold JS.has. rewrite existsb_exists. split.
  - intros [y [Hy Heq]]. apply String.eqb_eq in Heq. now subst.
  - intros H. exists x. split; [assumption | apply String.eqb_refl].
Qed.

Lemma boolean_attr_not_skipped key :
  JS.has BOOLEAN_ATTRS (attrNameOf key) = true -> skippedKey key = false.
Proof.
  intros H. unfold skippedKey.
  destruct (String.eqb_spec key "children") as [->|_]; [discriminate|].
  destruct (String.eqb_spec key "key") as [->|_]; [discriminate|].
  destruct (String.eqb_spec key "ref") as [->|_]; [discriminate|].
  reflexivity.
Qed.

Lemma boolean_attr_not_style key :
  JS.has BOOLEAN_ATTRS (attrNameOf key) = true ->
  (attrNameOf key =? "style") = false.
Proof.
  intros H.
  destruct (String.eqb_spec (attrNameOf key) "style") as [E|_];
    [|reflexivity].
  rewrite E in H. discriminate.
Qed.

Lemma append_not_self (s t : string) : s ++ t = s -> t = "".
Proof.
  induction s as [|c s IH]; simpl; intros H; [assumption|].
  injection H as H. auto.
Qed.

Lemma valued_not_bare (name value : string) :
  name ++ "=" ++ JS.q ++ value ++ JS.q <> name.
Proof.
  intros H. apply append_not_self in H. discriminate.
Qed.

Lemma renderAttrs_skip key value before after :
  pushed (key, value) = [] ->
  renderAttrs (before ++ (key, value) :: after)%list
  = renderAttrs (before ++ after)%list.
Proof.
  intros H. rewrite !renderAttrs_emitted, !emitted_app.
  change (emitted ((key, value) :: after))
    with (pushed (key, value) ++ emitted after)%list.
  now rewrite H.
Qed.

(** C7: for a key of the boolean-attribute set the bare name is what the
    entry adds exactly when its value is [true]; under any key, [false],
    [null] and [undefined] add nothing, and the output is the one of the
    mapping without the entry; [checked: true, disabled: false] emits the
    one attribute [checked]. *)
Theorem boolean_attribute_bare_or_omitted
        (key : string) (value : PropValue) (before after : Props) :
  (JS.has BOOLEAN_ATTRS (attrNameOf key) = true ->
   (pushed (key, value) = [attrNameOf key] <-> value = PBoolean true))
  /\ (value = PBoolean false \/ value = PNull \/ value = PUndefined ->
      pushed (key, value) = []
      /\ renderAttrs (before ++ (key, value) :: after)%list
         = renderAttrs (before ++ after)%list)
  /\ emitted [("checked", PBoolean true); ("disabled", PBoolean false)]
     = ["checked"]
  /\ renderAttrs [("checked", PBoolean true); ("disabled", PBoolean false)]
     = " checked".
Proof.
  split; [|split; [|split; reflexivity]].
  - intros Hset.
    pose proof (boolean_attr_not_skipped _ Hset) as Hskip.
    pose proof (boolean_attr_not_style _ Hset) as Hstyle.
    unfold pushed, renderAttrsStep, JS.push.
    rewrite Hskip, Hset, Hstyle.
    split.
    + destruct value as [s|n|[|]| | |entries|]; simpl; intros H;
        try reflexivity; try discriminate;
        injection H as H; now apply valued_not_bare in H.
    + now intros ->.
  - intros Hvalue.
    assert (pushed (key, value) = []) as Hnone.
    { unfold pushed, renderAttrsStep.
      destruct (skippedKey key); [reflexivity|].
      now destruct Hvalue as [-> | [-> | ->]]. }
    split; [assumption | now apply renderAttrs_skip].
Qed.

(** C10: [true] under a key that is not of the boolean-attribute set adds
    nothing: neither the bare name nor a [key=...] pair, and the element
    renders as it does without the entry. *)
Theorem true_on_other_attribute_omitted
        (key : string) (before after : Props)
        (fuel : nat) (type : string) (children : list Child) :
  JS.has BOOLEAN_ATTRS (attrNameOf key) = false ->
  pushed (key, PBoolean true) = []
  /\ renderAttrs (before ++ (key, PBoolean true) :: after)%list
     = renderAttrs (before ++ after)%list
  /\ renderToString fuel
       (RVNode (mkVNode (Tag type)
                  (before ++ (key, PBoolean true) :: after)%list children))
     = renderToString fuel
         (RVNode (mkVNode (Tag type) (before ++ after)%list children)).
Proof.
  intros Hset.
  assert (pushed (key, PBoolean true) = []) as Hnone.
  { unfold pushed, renderAttrsStep.
    destruct (skippedKey key); [reflexivity|].
    cbv zeta. cbn [isFalseOrNullish]. now rewrite Hset. }
  pose proof (renderAttrs_skip _ _ before after Hnone) as Hattrs.
  split; [assumption | split; [assumption|]].
  destruct fuel as [|fuel]; [reflexivity|].
  now rewrite !renderToString_tag, Hattrs.
Qed.




(** *** Elements *)

Lemma void_not_fragment type :
  JS.has VOID_ELEMENTS type = true -> (type =? "fragment") = false.
Proof.
  intros H.
  destruct (String.eqb_spec type "fragment") as [->|_];
    [discriminate | reflexivity].
Qed.

(** C5: an element of the void set comes out self-closing whatever its
    children are, with no child content and no closing tag; any other
    element whose children render to nothing comes out as an opening and a
    closing tag. *)
Theorem void_self_closing_and_empty_element
        (fuel : nat) (type : string) (props : Props)
        (children : list Child) (html : string) :
  renderChildren fuel children = Some html ->
  (In type VOID_ELEMENTS ->
   renderToString (S fuel) (RVNode (mkVNode (Tag type) props children))
   = Some ("<" ++ type ++ renderAttrs props ++ " />")
   /\ render (S fuel) (RVNode (mkVNode (Tag type) props children))
      = Some ("<" ++ type ++ renderAttrs props ++ " />"))
  /\ (~ In type VOID_ELEMENTS ->
      html = "" ->
      renderToString (S fuel) (RVNode (mkVNode (Tag type) props children))
      = Some ("<" ++ type ++ renderAttrs props ++ "></" ++ type ++ ">")).
Proof.
  intros Hchildren. split.
  - intros Hvoid. apply has_In in Hvoid.
    assert (renderToString (S fuel)
              (RVNode (mkVNode (Tag type) props children))
            = Some ("<" ++ type ++ renderAttrs props ++ " />")) as H.
    { now rewrite renderToString_tag, Hchildren, Hvoid. }
    split; [assumption|].
    unfold render, originalRenderToString.
    now rewrite (void_not_fragment _ Hvoid).
  - intros Hvoid ->.
    rewrite renderToString_tag, Hchildren.
    destruct (JS.has VOID_ELEMENTS type) eqn:E;
      [apply has_In in E; contradiction | reflexivity].
Qed.

(** C2, what the code does: [render] drops the wrapper of a fragment only
    when the fragment is the node it is called on.  A fragment below an
    element, and one that a component returns, go through
    [renderToString], which writes a [fragment] element around the
    children. *)
Theorem fragment_wrapper_kept_below_top
        (fuel : nat) (f : component) (props : Props)
        (children : list Child) (html : string) :
  renderChildren fuel children = Some html ->
  invoke f props children = Fragment (Some children) ->
  render fuel (RVNode (Fragment (Some children))) = Some html
  /\ render (S (S (S fuel)))
       (RVNode (mkVNode (Tag "div") []
                  [CVNode (Fragment (Some children))]))
     = Some ("<div><fragment>" ++ html ++ "</fragment></div>")
  /\ render (S (S fuel)) (RVNode (mkVNode (Fn f) props children))
     = Some ("<fragment>" ++ html ++ "</fragment>").
Proof.
  intros Hchildren Hinvoke.
  assert (renderToString (S fuel) (RVNode (Fragment (Some children)))
          = Some ("<fragment>" ++ html ++ "</fragment>")) as Hfragment.
  { unfold Fragment. now rewrite renderToString_tag, Hchildren. }
  split; [assumption | split].
  - unfold render, originalRenderToString.
    change ("div" =? "fragment") with false. cbv iota.
    rewrite renderToString_tag, renderChildren_S.
    cbn [map all]. rewrite Hfragment.
    cbn [all option_map]. rewrite StringFacts.join_singleton.
    change (JS.has VOID_ELEMENTS "div") with false. cbv iota.
    f_equal. simpl. now rewrite StringFacts.append_assoc.
  - unfold render, originalRenderToString.
    now rewrite renderToString_fn, Hinvoke.
Qed.

(** *** Fuel *)

Lemma all_map_weaken {A B : Type} (g h : A -> option B) (l : list A)
      (r : list B) :
  (forall x y, g x = Some y -> h x = Some y) ->
  all (map g l) = Some r -> all (map h l) = Some r.
Proof.
  intros Hgh. revert r.
  induction l as [|x l IH]; simpl; intros r H; [assumption|].
  destruct (g x) as [y|] eqn:Ex; [|discriminate].
  destruct (all (map g l)) as [ys|] eqn:El; [|discriminate].
  now rewrite (Hgh _ _ Ex), (IH _ eq_refl).
Qed.

Lemma render_more_fuel_step (fuel : nat) :
  (forall children html,
      renderChildren fuel children = Some html ->
      renderChildren (S fuel) children = Some html)
  /\ (forall node html,
         renderToString fuel node = Some html ->
         renderToString (S fuel) node = Some html).
Proof.
  induction fuel as [|fuel [IHc IHn]]; [split; discriminate|].
  split.
  - intros children html H.
    rewrite renderChildren_S in H |- *.
    destruct (all (map _ children)) as [l|] eqn:El in H; [|discriminate].
    erewrite all_map_weaken; [exact H | | exact El].
    intros [s|n|b| | |v|a] y Hy; auto.
  - intros [ | |s|n|[[type|f] props children]] html H;
      try exact H.
    + rewrite renderToString_tag in H |- *.
      destruct (renderChildren fuel children) as [c|] eqn:Ec;
        [|discriminate].
      now rewrite (IHc _ _ Ec).
    + rewrite renderToString_fn in H |- *. auto.
Qed.

Lemma renderToString_more_fuel (fuel fuel' : nat) node html :
  fuel <= fuel' ->
  renderToString fuel node = Some html ->
  renderToString fuel' node = Some html.
Proof.
  induction 1 as [|fuel' _ IH]; intros H; [assumption|].
  now apply render_more_fuel_step, IH.
Qed.

Lemma renderChildren_more_fuel (fuel fuel' : nat) children html :
  fuel <= fuel' ->
  renderChildren fuel children = Some html ->
  renderChildren fuel' children = Some html.
Proof.
  induction 1 as [|fuel' _ IH]; intros H; [assumption|].
  now apply render_more_fuel_step, IH.
Qed.



(** *** Trees without components always render

    The depth of calls a tree without components needs, and that the
    renderer returns within it. *)

Lemma all_map_defined {A B : Type} (g : A -> option B) (l : list A) :
  (forall x, In x l -> exists y, g x = Some y) ->
  exists r, all (map g l) = Some r.
Proof.
  induction l as [|x l IH]; intros H; simpl.
  - now exists [].
  - destruct (H x (or_introl eq_refl)) as [y ->].
    destruct IH as [r ->]; [intros z Hz; apply H; now right|].
    now exists (y :: r).
Qed.

Lemma intrinsic_tree_renders (fuel : nat) :
  (forall children,
      S (list_max (map childFuel children)) <= fuel ->
      forallb intrinsicOnlyChild children = true ->
      exists html, renderChildren fuel children = Some html)
  /\ (forall v,
         vnodeFuel v <= fuel ->
         intrinsicOnly v = true ->
         exists html, renderToString fuel (RVNode v) = Some html).
Proof.
  induction fuel as [|fuel [IHc IHn]].
  { split; [intros children H; lia | intros [type props children] H].
    simpl in H; lia. }
  split.
  - intros children Hfuel Hall.
    apply le_S_n in Hfuel.
    apply list_max_le in Hfuel.
    rewrite Forall_forall in Hfuel.
    rewrite forallb_forall in Hall.
    rewrite renderChildren_S.
    edestruct (all_map_defined
                 (fun child : Child =>
                    match child with
                    | CNull | CUndefined | CBoolean _ => Some ""
                    | CString s => Some (escapeHtml s)
                    | CNumber n => Some (stringOfNumber n)
                    | CArray a => renderChildren fuel a
                    | CVNode v => renderToString fuel (RVNode v)
                    end) children) as [r Hr].
    + intros child Hin.
      specialize (Hfuel (childFuel child) (in_map _ _ _ Hin)).
      specialize (Hall child Hin).
      destruct child as [s|n|b| | |v|a]; eauto.
    + rewrite Hr. simpl. eauto.
  - intros [[type|f] props children] Hfuel Hintrinsic; [|discriminate].
    simpl in Hfuel, Hintrinsic. apply le_S_n in Hfuel.
    destruct (IHc children Hfuel Hintrinsic) as [html Hhtml].
    rewrite renderToString_tag, Hhtml.
    destruct (JS.has VOID_ELEMENTS type); eauto.
Qed.

(** X10: an element tree without components always renders: within
    [vnodeFuel] nested calls, two for each level of elements and one for each
    level of arrays, and within any larger bound to the same string. *)
Corollary intrinsic_vnode_renders (v : VNode) (fuel : nat) :
  intrinsicOnly v = true ->
  vnodeFuel v <= fuel ->
  exists html,
    renderToString (vnodeFuel v) (RVNode v) = Some html
    /\ renderToString fuel (RVNode v) = Some html.
Proof.
  intros Hintrinsic Hfuel.
  destruct (proj2 (intrinsic_tree_renders (vnodeFuel v)) v (le_n _) Hintrinsic)
    as [html Hhtml].
  exists html. split; [assumption|].
  now apply (renderToString_more_fuel (vnodeFuel v)).
Qed.

End RuntimeFacts.

(** ** The document around the body *)

Lemma includes_cons_false (pat : string) (c : ascii) (s : string) :
  JS.includes pat (String c s) = false ->
  JS.startsWith pat (String c s) = false /\ JS.includes pat s = false.
Proof. simpl. intros H. now apply orb_false_iff in H. Qed.

Lemma startsWith_html_lower (s : string) :
  JS.startsWith "<html" s = true ->
  JS.startsWith "<html" (JS.toLowerCase s) = true.
Proof.
  intros H. apply StringFacts.startsWith_inv in H as [rest ->].
  rewrite StringFacts.toLowerCase_app.
  apply StringFacts.startsWith_app.
Qed.

(** No occurrence of [<html] begins in the body and ends in the lines that
    close the wrapper: they start with a line feed. *)
Lemma startsWith_html_before_tail (s : string) :
  JS.startsWith "<html" (s ++ wrapperTail) = true ->
  JS.startsWith "<html" s = true.
Proof.
  apply (StringFacts.startsWith_before "<html" s JS.linefeed
           ("</body>" ++ JS.nl ++ "</html>")).
  reflexivity.
Qed.

Lemma occurrences_body_tail (body : string) :
  JS.includes "<html" (JS.toLowerCase body) = false ->
  JS.occurrences "<html" (body ++ wrapperTail) = 0.
Proof.
  induction body as [|c body IH]; intros H; [reflexivity|].
  change (JS.toLowerCase (String c body))
    with (String (JS.lowerChar c) (JS.toLowerCase body)) in H.
  apply includes_cons_false in H as [Hhead Hrest].
  change (JS.occurrences "<html" (String c body ++ wrapperTail))
    with ((if JS.startsWith "<html" (String c body ++ wrapperTail)
           then 1 else 0)
          + JS.occurrences "<html" (body ++ wrapperTail)).
  rewrite (IH Hrest).
  destruct (JS.startsWith "<html" (String c body ++ wrapperTail)) eqn:E;
    [|reflexivity].
  apply startsWith_html_before_tail, startsWith_html_lower in E.
  change (JS.toLowerCase (String c body))
    with (String (JS.lowerChar c) (JS.toLowerCase body)) in E.
  congruence.
Qed.

Lemma occurrences_wrapperHead (rest : string) :
  JS.occurrences "<html" (wrapperHead ++ rest)
  = S (JS.occurrences "<html" rest).
Proof. reflexivity. Qed.

Lemma occurrences_doctype (rest : string) :
  JS.occurrences "<html" (doctype ++ rest) = JS.occurrences "<html" rest.
Proof. reflexivity. Qed.

Lemma wrapperHead_doctype :
  exists rest, wrapperHead = doctype ++ rest.
Proof. eexists. reflexivity. Qed.

(** ** The mailer *)

Section MailerFacts.

Context {number component : Type}.
Context (stringOfNumber : number -> string)
        (invoke : component -> @Props number -> list (@Child number component)
                  -> @VNode number component).
Context (convert : string -> string)
        (sendMail : Message.t -> Error + SendResult.t).
Variable config : MailerConfig.t.

Local Abbreviation VNode := (@VNode number component).
Local Abbreviation render := (render stringOfNumber invoke).
Local Abbreviation renderHtml := (renderHtml stringOfNumber invoke).
Local Abbreviation compile := (compile stringOfNumber invoke convert).
Local Abbreviation send :=
  (send stringOfNumber invoke convert sendMail config).

(** C4, as the code has it: the document starts with the doctype line;
    a body that holds [<html] in any case follows it verbatim, and the
    document then holds [<html] as often as the body does; any other body
    is put in the wrapper, and the document then holds [<html] once. *)
Theorem compiled_document_shape
        (fuel : nat) (vnode : VNode) (body : string) :
  render fuel (RVNode vnode) = Some body ->
  exists html,
    renderHtml fuel vnode = Some html
    /\ JS.startsWith ("<!DOCTYPE html>" ++ JS.nl) html = true
    /\ (JS.includes "<html" (JS.toLowerCase body) = true ->
        html = "<!DOCTYPE html>" ++ JS.nl ++ body
        /\ JS.occurrences "<html" html = JS.occurrences "<html" body)
    /\ (JS.includes "<html" (JS.toLowerCase body) = false ->
        html = wrapperHead ++ body ++ wrapperTail
        /\ JS.occurrences "<html" html = 1).
Proof.
  intros Hbody. unfold renderHtml. rewrite Hbody.
  destruct (JS.includes "<html" (JS.toLowerCase body)) eqn:E.
  - exists (doctype ++ body). repeat split; discriminate.
  - exists (wrapperHead ++ body ++ wrapperTail).
    repeat split; try discriminate.
    rewrite occurrences_wrapperHead.
    now rewrite (occurrences_body_tail _ E).
Qed.

Lemma compile_meta {TProps : Type} (fuel : nat)
      (template : EmailTemplate TProps) (props : TProps) compiled :
  compile fuel template props = Some compiled ->
  CompiledEmail.meta compiled = templateMeta (template props).
Proof.
  unfold compile, templateMeta.
  destruct (template props) as [v|r].
  - destruct (renderHtml fuel v); [|discriminate].
    now intros [= <-].
  - destruct (renderHtml fuel (body r)); [|discriminate].
    now intros [= <-].
Qed.

(** C3, as the code has it: the subject is the one of the options, else
    the one of the template's metadata; when there is none, or it is the
    empty string, [send] fails with the subject error and [sendMail] is
    not called; otherwise the one message sent carries prefix, subject and
    suffix, an affix that is not configured being empty. *)
Theorem send_subject_resolution
        {TProps : Type} (fuel : nat) (template : EmailTemplate TProps)
        (options : EmailOptions.t TProps) (compiled : CompiledEmail.t) :
  compile fuel template (EmailOptions.props options) = Some compiled ->
  match resolvedSubject options
          (templateMeta (template (EmailOptions.props options))) with
  | None => failsBeforeTransport (send fuel template options)
  | Some subject =>
      if subject =? ""
      then failsBeforeTransport (send fuel template options)
      else
        transmits (send fuel template options)
          (affix (MailerConfig.subjectPrefix config)
             ++ subject ++ affix (MailerConfig.subjectSuffix config))
  end.
Proof.
  intros Hcompile.
  pose proof (compile_meta _ _ _ _ Hcompile) as Hmeta.
  unfold failsBeforeTransport, transmits, send.
  rewrite Hcompile, Hmeta.
  set (m := templateMeta (template (EmailOptions.props options))).
  unfold resolvedSubject, nullish, optionalChain.
  destruct (EmailOptions.subject options) as [subject|].
  - unfold truthyString.
    destruct (subject =? ""); simpl; [reflexivity|].
    destruct (sendMail _);
      (do 2 eexists; split; [reflexivity | split; reflexivity]).
  - destruct m as [m|]; [|reflexivity].
    destruct (EmailMeta.subject m) as [subject|]; [|reflexivity].
    unfold truthyString.
    destruct (subject =? ""); simpl; [reflexivity|].
    destruct (sendMail _);
      (do 2 eexists; split; [reflexivity | split; reflexivity]).
Qed.

End MailerFacts.

(** ** Addresses *)

Lemma includes_char (c : ascii) (s : string) :
  JS.includes (String c "") s = hasChar c s.
Proof.
  induction s as [|a s IH]; [reflexivity|].
  simpl. now rewrite IH, andb_true_r, Ascii.eqb_sym.
Qed.

Lemma replaceAll_escapeQuotes (name : string) :
  JS.replaceAll (Ascii.eqb JS.dquote) (fun _ => String JS.backslash JS.q) name
  = escapeQuotes name.
Proof.
  induction name as [|c name IH]; [reflexivity|].
  cbn [JS.replaceAll escapeQuotes].
  rewrite IH, (Ascii.eqb_sym JS.dquote c).
  now destruct (Ascii.eqb c JS.dquote).
Qed.

(** C6: a bare address is kept; a structured one is [name <email>], the
    name between double quotes, each of its double quotes behind a
    backslash, exactly when it holds a comma or a double quote; a sequence is
    its formatted members in order with a comma and a space between them,
    a member that occurs twice is written twice, and the empty sequence is
    the empty string. *)
Theorem address_formatting
        (address name email : string) (a b : EmailAddress)
        (l : list EmailAddress) :
  formatEmailAddress (Address address) = address
  /\ formatEmailAddress (Named name email)
     = (if hasChar "," name || hasChar JS.dquote name
        then JS.q ++ escapeQuotes name ++ JS.q
        else name)
       ++ " <" ++ email ++ ">"
  /\ formatEmailAddresses (Several []) = ""
  /\ formatEmailAddresses (Several [a]) = formatEmailAddress a
  /\ formatEmailAddresses (Several (a :: b :: l))
     = formatEmailAddress a ++ ", " ++ formatEmailAddresses (Several (b :: l))
  /\ formatEmailAddresses (Several [a; a])
     = formatEmailAddress a ++ ", " ++ formatEmailAddress a
  /\ formatEmailAddresses (Single a) = formatEmailAddress a.
Proof.
  repeat split.
  unfold formatEmailAddress.
  change JS.q with (String JS.dquote "") at 1.
  now rewrite !includes_char, replaceAll_escapeQuotes.
Qed.

(** * The theorems at concrete trees *)

Example render_test_suite :
  Demo.renderToString 3
    (RVNode (Demo.element "input"
               [("type", PString "checkbox"); ("checked", PBoolean true);
                ("disabled", PBoolean false); ("key", PUndefined)] []))
  = Some ("<input type=" ++ JS.q ++ "checkbox" ++ JS.q ++ " checked />")
  /\ Demo.renderToString 5
       (RVNode (Demo.element "ul" []
                  [CArray [CVNode (Demo.element "li" [] [CString "a"]);
                           CVNode (Demo.element "li" [] [CNumber 42])]]))
     = Some "<ul><li>a</li><li>42</li></ul>"
  /\ Demo.renderToString 3 (RVNode (mkVNode (Fn Demo.Greeting) [] []))
     = Some "<h1>Hello</h1>".
Proof. repeat split. Qed.

(** C2 at the trees of the claim: the fragment alone, below a [div], and
    as what the component [Fragment] returns. *)
Lemma fragment_wrapper_kept_below_top_witness :
  Demo.render 1 (RVNode (Fragment (Some [CString "x"]))) = Some "x"
  /\ Demo.render 4
       (RVNode (Demo.element "div" []
                  [CVNode (Fragment (Some [CString "x"]))]))
     = Some "<div><fragment>x</fragment></div>"
  /\ Demo.render 3 (RVNode (mkVNode (Fn Demo.FragmentFn) [] [CString "x"]))
     = Some "<fragment>x</fragment>".
Proof.
  exact (fragment_wrapper_kept_below_top Demo.stringOfNumber Demo.invoke
           1 Demo.FragmentFn [] [CString "x"] "x" eq_refl eq_refl).
Defined.

(** C3 as stated fails on an empty subject in the options: it is present,
    and nothing is sent. *)
Lemma empty_subject_is_refused :
  ~ subjectRule Demo.stringOfNumber Demo.invoke Demo.convert Demo.sendMail
      Demo.config 3 Demo.withSubject (Demo.optionsWith (Some "")).
Proof.
  unfold subjectRule, transmits.
  intros [o [message [Hsend [Hsent _]]]].
  vm_compute in Hsend. injection Hsend as <-.
  discriminate Hsent.
Qed.

Lemma send_subject_resolution_witness :
  transmits (Demo.send 3 Demo.withSubject (Demo.optionsWith None))
    "[App] From Template"
  /\ transmits (Demo.send 3 Demo.withSubject (Demo.optionsWith (Some "Override")))
       "[App] Override"
  /\ failsBeforeTransport (Demo.send 3 Demo.bare (Demo.optionsWith None)).
Proof.
  split; [|split].
  - eapply (send_subject_resolution Demo.stringOfNumber Demo.invoke
              Demo.convert Demo.sendMail Demo.config 3 Demo.withSubject
              (Demo.optionsWith None)).
    reflexivity.
  - eapply (send_subject_resolution Demo.stringOfNumber Demo.invoke
              Demo.convert Demo.sendMail Demo.config 3 Demo.withSubject
              (Demo.optionsWith (Some "Override"))).
    reflexivity.
  - eapply (send_subject_resolution Demo.stringOfNumber Demo.invoke
              Demo.convert Demo.sendMail Demo.config 3 Demo.bare
              (Demo.optionsWith None)).
    reflexivity.
Defined.

(** C4 as stated fails on an [html] element inside another: the body is
    kept verbatim, and [<html] stands twice in the document. *)
Lemma nested_html_stands_twice :
  ~ holdsHtmlOnce Demo.stringOfNumber Demo.invoke 4 Demo.nestedHtml.
Proof.
  intros H. specialize (H _ eq_refl). discriminate H.
Qed.

Lemma compiled_document_shape_witness :
  exists html,
    Demo.renderHtml 2 (Demo.element "p" [] [CString "Test"]) = Some html
    /\ JS.startsWith ("<!DOCTYPE html>" ++ JS.nl) html = true
    /\ JS.occurrences "<html" html = 1.
Proof.
  destruct (compiled_document_shape Demo.stringOfNumber Demo.invoke
              2 (Demo.element "p" [] [CString "Test"]) "<p>Test</p>" eq_refl)
    as [html [Hhtml [Hdoctype [_ Hwrapped]]]].
  exists html. split; [exact Hhtml | split; [exact Hdoctype|]].
  exact (proj2 (Hwrapped eq_refl)).
Defined.

Lemma void_self_closing_and_empty_element_witness :
  Demo.renderToString 2
    (RVNode (Demo.element "br" [("className", PString "x")]
               [CString "ignored"]))
  = Some ("<br class=" ++ JS.q ++ "x" ++ JS.q ++ " />")
  /\ Demo.renderToString 2 (RVNode (Demo.element "div" [] []))
     = Some "<div></div>".
Proof.
  split.
  - refine (proj1 (proj1 (void_self_closing_and_empty_element
                            Demo.stringOfNumber Demo.invoke 1 "br"
                            [("className", PString "x")]
                            [CString "ignored"] "ignored" eq_refl) _)).
    apply has_In. reflexivity.
  - refine (proj2 (void_self_closing_and_empty_element
                     Demo.stringOfNumber Demo.invoke 1 "div" [] [] ""
                     eq_refl) _ eq_refl).
    intros H. apply has_In in H. discriminate H.
Defined.

Lemma boolean_attribute_bare_or_omitted_witness :
  pushed Demo.stringOfNumber ("checked", PBoolean true) = ["checked"]
  /\ pushed Demo.stringOfNumber ("disabled", PNull) = []
  /\ Demo.renderAttrs
       [("type", PString "checkbox"); ("disabled", PNull);
        ("checked", PBoolean true)]
     = Demo.renderAttrs
         [("type", PString "checkbox"); ("checked", PBoolean true)].
Proof.
  split.
  - apply (proj1 (boolean_attribute_bare_or_omitted Demo.stringOfNumber
                    "checked" (PBoolean true) [] [])); reflexivity.
  - apply (proj1 (proj2 (boolean_attribute_bare_or_omitted
                           Demo.stringOfNumber "disabled" PNull
                           [("type", PString "checkbox")]
                           [("checked", PBoolean true)]))).
    right; left; reflexivity.
Defined.

Lemma true_on_other_attribute_omitted_witness :
  Demo.renderToString 2
    (RVNode (Demo.element "a"
               [("href", PString "f.pdf"); ("download", PBoolean true)] []))
  = Demo.renderToString 2
      (RVNode (Demo.element "a" [("href", PString "f.pdf")] [])).
Proof.
  exact (proj2 (proj2 (true_on_other_attribute_omitted
                         Demo.stringOfNumber Demo.invoke "download"
                         [("href", PString "f.pdf")] [] 2 "a" [] eq_refl))).
Defined.


(** * Further properties of the code *)

(** ** Escaping *)

Lemma hasChar_app (c : ascii) (a b : string) :
  hasChar c (a ++ b) = hasChar c a || hasChar c b.
Proof.
  induction a as [|x a IH]; [reflexivity|].
  simpl. now rewrite IH, orb_assoc.
Qed.

(** The entity of a character, by cases on the character. *)
Lemma entityOf_cases (c : ascii) :
  (c = "&"%char /\ entityOf c = "&amp;")
  \/ (c = "<"%char /\ entityOf c = "&lt;")
  \/ (c = ">"%char /\ entityOf c = "&gt;")
  \/ (c = JS.dquote /\ entityOf c = "&quot;")
  \/ (c = "'"%char /\ entityOf c = "&#39;")
  \/ (entityOf c = String c ""
      /\ c <> "&"%char /\ c <> "<"%char /\ c <> ">"%char
      /\ c <> JS.dquote /\ c <> "'"%char).
Proof.
  unfold entityOf.
  destruct (Ascii.eqb_spec c "&"); [now left|right].
  destruct (Ascii.eqb_spec c "<"); [now left|right].
  destruct (Ascii.eqb_spec c ">"); [now left|right].
  destruct (Ascii.eqb_spec c JS.dquote); [now left|right].
  destruct (Ascii.eqb_spec c "'"); [now left|right].
  repeat split; assumption.
Qed.

Lemma entityOf_no_markup (c x : ascii) :
  x = "<"%char \/ x = ">"%char \/ x = JS.dquote \/ x = "'"%char ->
  hasChar x (entityOf c) = false.
Proof.
  intros Hx.
  destruct (entityOf_cases c)
    as [[Hc E]|[[Hc E]|[[Hc E]|[[Hc E]|[[Hc E]|[E Hc]]]]]];
    rewrite E;
    try (destruct Hx as [Hx|[Hx|[Hx|Hx]]]; rewrite Hx; reflexivity).
  simpl. rewrite orb_false_r. apply Ascii.eqb_neq.
  destruct Hc as [_ [? [? [? ?]]]].
  destruct Hx as [Hx|[Hx|[Hx|Hx]]]; rewrite Hx; assumption.
Qed.

(** X1: whatever the text, the escaped string holds no [<], no [>], no
    double quote and no apostrophe: a text leaf cannot open or close a tag,
    and an attribute value cannot end its quotes. *)
Theorem escapeHtml_leaves_no_markup_character (s : string) :
  hasChar "<" (escapeHtml s) = false
  /\ hasChar ">" (escapeHtml s) = false
  /\ hasChar JS.dquote (escapeHtml s) = false
  /\ hasChar "'" (escapeHtml s) = false.
Proof.
  rewrite escapeHtml_entityEncode.
  induction s as [|c s [IH1 [IH2 [IH3 IH4]]]]; [repeat split|].
  cbn [entityEncode]. rewrite !hasChar_app, IH1, IH2, IH3, IH4.
  rewrite !entityOf_no_markup; auto.
Qed.

Lemma entityOf_app_inj (c d : ascii) (a b : string) :
  entityOf c ++ a = entityOf d ++ b -> c = d /\ a = b.
Proof.
  intros H.
  destruct (entityOf_cases c)
    as [[Hc Ec]|[[Hc Ec]|[[Hc Ec]|[[Hc Ec]|[[Hc Ec]|[Ec Hc]]]]]];
    destruct (entityOf_cases d)
      as [[Hd Ed]|[[Hd Ed]|[[Hd Ed]|[[Hd Ed]|[[Hd Ed]|[Ed Hd]]]]]];
    rewrite Ec, Ed in H; simpl in H;
    try discriminate H;
    try (injection H as H; subst; now split);
    try (injection H as Hcd H; exfalso; subst; intuition congruence).
Qed.

(** X2: escaping loses nothing: two texts with the same escaped string are
    the same text. *)
Theorem escapeHtml_injective (a b : string) :
  escapeHtml a = escapeHtml b -> a = b.
Proof.
  rewrite !escapeHtml_entityEncode.
  revert b; induction a as [|c a IH]; intros [|d b] H.
  - reflexivity.
  - exfalso. cbn [entityEncode] in H.
    destruct (entityOf_cases d)
      as [[_ E]|[[_ E]|[[_ E]|[[_ E]|[[_ E]|[E _]]]]]];
      rewrite E in H; discriminate H.
  - exfalso. cbn [entityEncode] in H.
    destruct (entityOf_cases c)
      as [[_ E]|[[_ E]|[[_ E]|[[_ E]|[[_ E]|[E _]]]]]];
      rewrite E in H; discriminate H.
  - cbn [entityEncode] in H.
    apply entityOf_app_inj in H as [-> H].
    now rewrite (IH _ H).
Qed.

(** ** Children, attributes and [jsx] *)

Lemma all_app {A : Type} (l1 l2 : list (option A)) :
  all (l1 ++ l2)
  = match all l1, all l2 with
    | Some a, Some b => Some (a ++ b)%list
    | _, _ => None
    end.
Proof.
  induction l1 as [|o l1 IH]; simpl.
  - now destruct (all l2).
  - destruct o as [x|]; [|reflexivity].
    rewrite IH. destruct (all l1), (all l2); reflexivity.
Qed.

Lemma join_empty_sep_cons (x : string) (l : list string) :
  JS.join "" (x :: l) = x ++ JS.join "" l.
Proof. apply (StringFacts.join_empty_sep_app [x] l). Qed.

Lemma spaced_app (a1 a2 : list string) :
  match (a1 ++ a2)%list with
  | [] => ""
  | attrs => " " ++ JS.join " " attrs
  end
  = match a1 with
    | [] => ""
    | attrs => " " ++ JS.join " " attrs
    end
    ++ match a2 with
       | [] => ""
       | attrs => " " ++ JS.join " " attrs
       end.
Proof.
  destruct a1 as [|x a1]; [now destruct a2|].
  revert x; induction a1 as [|y a1 IH]; intros x.
  - destruct a2 as [|z a2]; simpl.
    + now rewrite StringFacts.append_nil_r.
    + reflexivity.
  - specialize (IH y).
    cbn [app] in IH |- *.
    rewrite (StringFacts.join_cons2 " " x y (a1 ++ a2)).
    rewrite (StringFacts.join_cons2 " " x y a1).
    rewrite IH.
    now rewrite !StringFacts.append_assoc.
Qed.

Section RuntimeExtras.

Context {number component : Type}.
Context (stringOfNumber : number -> string)
        (invoke : component -> @Props number -> list (@Child number component)
                  -> @VNode number component).

Local Abbreviation Child := (@Child number component).
Local Abbreviation VNode := (@VNode number component).
Local Abbreviation renderAttrs := (renderAttrs stringOfNumber).
Local Abbreviation pushed := (pushed stringOfNumber).
Local Abbreviation emitted := (emitted stringOfNumber).
Local Abbreviation renderChildren := (renderChildren stringOfNumber invoke).
Local Abbreviation renderToString := (renderToString stringOfNumber invoke).
Local Abbreviation render := (render stringOfNumber invoke).

Lemma renderChildren_cat (fuel : nat) (l1 l2 : list Child) :
  renderChildren (S fuel) (l1 ++ l2)
  = match renderChildren (S fuel) l1, renderChildren (S fuel) l2 with
    | Some a, Some b => Some (a ++ b)
    | _, _ => None
    end.
Proof.
  rewrite !(renderChildren_S stringOfNumber invoke), map_app, all_app.
  destruct (all (map _ l1)) as [a|]; [|reflexivity].
  destruct (all (map _ l2)) as [b|]; [|reflexivity].
  simpl. now rewrite StringFacts.join_empty_sep_app.
Qed.

Lemma renderChildren_nil (fuel : nat) : renderChildren (S fuel) [] = Some "".
Proof. reflexivity. Qed.

Lemma renderChildren_cons (fuel : nat) (c : Child) (l : list Child) :
  renderChildren (S fuel) (c :: l)
  = match renderChildren (S fuel) [c], renderChildren (S fuel) l with
    | Some a, Some b => Some (a ++ b)
    | _, _ => None
    end.
Proof. apply (renderChildren_cat fuel [c] l). Qed.

(** X3: a text cut into pieces renders as the text in one piece: the
    string children of an element come out as the escaped concatenation. *)
Theorem text_in_pieces_renders_as_one (fuel : nat) (pieces : list string) :
  renderChildren (S fuel) (map CString pieces)
  = Some (escapeHtml (JS.join "" pieces)).
Proof.
  induction pieces as [|p pieces IH]; [reflexivity|].
  cbn [map]. rewrite renderChildren_cons, IH.
  change (renderChildren (S fuel) [CString p])
    with (Some (JS.join "" [escapeHtml p])).
  rewrite StringFacts.join_singleton, join_empty_sep_cons.
  now rewrite escapeHtml_app.
Qed.

(** X4: children render one after the other: a sequence renders exactly
    when its two parts do, to the two strings put together. *)
Theorem children_render_in_sequence
        (fuel : nat) (l1 l2 : list Child) (html : string) :
  renderChildren fuel (l1 ++ l2) = Some html
  <-> exists h1 h2,
        renderChildren fuel l1 = Some h1
        /\ renderChildren fuel l2 = Some h2
        /\ html = h1 ++ h2.
Proof.
  destruct fuel as [|fuel].
  - split; [discriminate | intros [h1 [h2 [H _]]]; discriminate H].
  - rewrite renderChildren_cat.
    destruct (renderChildren (S fuel) l1) as [a|];
      destruct (renderChildren (S fuel) l2) as [b|]; split;
      try discriminate;
      try (intros [h1 [h2 [H1 [H2 _]]]]; discriminate).
    + intros [= <-]. now exists a, b.
    + intros [h1 [h2 [[= <-] [[= <-] ->]]]]. reflexivity.
Qed.

(** X5: [null], [undefined], [true] and [false] among the children leave
    no trace: the output is the one of the children without them. *)
Theorem empty_children_vanish
        (fuel : nat) (before after : list Child) (b : bool) :
  renderChildren fuel (before ++ CNull :: after)
  = renderChildren fuel (before ++ after)
  /\ renderChildren fuel (before ++ CUndefined :: after)
     = renderChildren fuel (before ++ after)
  /\ renderChildren fuel (before ++ CBoolean b :: after)
     = renderChildren fuel (before ++ after).
Proof.
  destruct fuel as [|fuel]; [repeat split|].
  repeat split;
    rewrite !renderChildren_cat, renderChildren_cons;
    match goal with
    | |- context [renderChildren (S fuel) [?c]] =>
        change (renderChildren (S fuel) [c]) with (Some "")
    end;
    destruct (renderChildren (S fuel) before);
    destruct (renderChildren (S fuel) after); reflexivity.
Qed.

(** X6: an array among the children is the same as its members written in
    its place. *)
Theorem nested_array_flattens
        (fuel : nat) (before a after : list Child) (html : string) :
  renderChildren (S fuel) (before ++ CArray a :: after) = Some html ->
  renderChildren (S fuel) (before ++ a ++ after) = Some html.
Proof.
  rewrite !renderChildren_cat, renderChildren_cons.
  change (renderChildren (S fuel) [CArray a])
    with (option_map (JS.join "")
            (match renderChildren fuel a with
             | Some x => Some [x]
             | None => None
             end)).
  destruct (renderChildren (S fuel) before) as [hb|]; [|discriminate].
  destruct (renderChildren fuel a) as [ha|] eqn:Ea; [|discriminate].
  apply (renderChildren_more_fuel stringOfNumber invoke fuel (S fuel)) in Ea;
    [|auto].
  rewrite Ea. simpl.
  now destruct (renderChildren (S fuel) after).
Qed.

(** X7: attributes are written one by one, in the order of the mapping:
    the string for two mappings one after the other is the two strings one
    after the other. *)
Theorem attributes_render_in_sequence (props1 props2 : Props) :
  renderAttrs (props1 ++ props2)%list
  = renderAttrs props1 ++ renderAttrs props2.
Proof.
  rewrite !(renderAttrs_emitted stringOfNumber).
  rewrite (emitted_app stringOfNumber).
  pose proof (spaced_app (emitted props1) (emitted props2)) as H.
  destruct (emitted props1), (emitted props2); exact H.
Qed.

(** X8: an entry under [children], [key] or [ref], whatever its value, and
    an entry whose value is neither a string, a number nor a boolean (an
    object under a key other than [style], a function) are not written:
    the output is the one of the mapping without the entry. *)
Theorem reserved_and_unsupported_entries_dropped
        (key : string) (value : PropValue) (before after : Props) :
  In key ["children"; "key"; "ref"]
  \/ value = POther
  \/ (exists entries, value = PObject entries /\ attrNameOf key <> "style") ->
  renderAttrs (before ++ (key, value) :: after)%list
  = renderAttrs (before ++ after)%list.
Proof.
  intros H. apply (renderAttrs_skip stringOfNumber).
  unfold pushed, renderAttrsStep, skippedKey.
  destruct H as [Hkey | [-> | [entries [-> Hstyle]]]].
  - destruct Hkey as [<- | [<- | [<- | []]]]; reflexivity.
  - destruct (_ || _); [reflexivity|].
    cbv zeta. cbn [isFalseOrNullish isTrue]. now rewrite andb_false_r.
  - destruct (_ || _); [reflexivity|].
    cbv zeta. cbn [isFalseOrNullish isTrue]. rewrite andb_false_r.
    apply String.eqb_neq in Hstyle. now rewrite Hstyle.
Qed.

Lemma emitted_withKey (rest : Props) (key : PropValue) :
  emitted (withKey rest key) = emitted rest.
Proof.
  unfold emitted.
  induction rest as [|[k v] rest IH]; [reflexivity|].
  cbn [withKey]. destruct (String.eqb_spec k "key") as [->|Hk].
  - reflexivity.
  - cbn [flat_map]. now rewrite IH.
Qed.

(** X9: the [key] handed to [jsx] never reaches the markup: an element
    built with one key renders as the element built with another, or with
    none. *)
Theorem jsx_key_is_not_rendered
        (fuel : nat) (type : string) (props : option JsxProps)
        (key1 key2 : option string) :
  renderToString fuel (RVNode (jsx (Tag type) props key1))
  = renderToString fuel (RVNode (jsx (Tag type) props key2))
  /\ render fuel (RVNode (jsx (Tag type) props key1))
     = render fuel (RVNode (jsx (Tag type) props key2)).
Proof.
  assert (forall key,
             renderAttrs (withKey match props with
                                  | Some p => jsxRest p
                                  | None => []
                                  end key)
             = renderAttrs match props with
                           | Some p => jsxRest p
                           | None => []
                           end) as Hattrs.
  { intros key. rewrite !(renderAttrs_emitted stringOfNumber).
    now rewrite emitted_withKey. }
  assert (renderToString fuel (RVNode (jsx (Tag type) props key1))
          = renderToString fuel (RVNode (jsx (Tag type) props key2))) as H.
  { unfold jsx. destruct props as [[children rest]|];
      cbn [jsxChildren jsxRest] in *;
      (destruct fuel as [|fuel]; [reflexivity|]);
      rewrite !(renderToString_tag stringOfNumber invoke), !Hattrs;
      reflexivity. }
  split; [exact H|].
  unfold render, originalRenderToString, jsx in *.
  destruct props as [[children rest]|]; cbn [jsxChildren jsxRest] in *;
    destruct (type =? "fragment"); auto.
Qed.

End RuntimeExtras.

(** ** Style keys *)





(** ** Addresses in sequence *)

Lemma join_app (sep : string) (l1 l2 : list string) :
  l1 <> [] -> l2 <> [] ->
  JS.join sep (l1 ++ l2) = JS.join sep l1 ++ sep ++ JS.join sep l2.
Proof.
  intros H1 H2.
  destruct l1 as [|x l1]; [contradiction|]. clear H1.
  destruct l2 as [|z l2]; [contradiction|]. clear H2.
  revert x; induction l1 as [|y l1 IH]; intros x; [reflexivity|].
  cbn [app] in IH |- *.
  rewrite (StringFacts.join_cons2 sep x y (l1 ++ z :: l2)), (IH y).
  rewrite (StringFacts.join_cons2 sep x y l1).
  now rewrite !StringFacts.append_assoc.
Qed.

(** X11: two lists of recipients, neither empty, format as the first, a
    comma and a space, and the second. *)
Theorem recipients_in_sequence (l1 l2 : list EmailAddress) :
  l1 <> [] -> l2 <> [] ->
  formatEmailAddresses (Several (l1 ++ l2))
  = formatEmailAddresses (Several l1) ++ ", "
      ++ formatEmailAddresses (Several l2).
Proof.
  intros H1 H2. unfold formatEmailAddresses.
  rewrite map_app. apply join_app.
  - destruct l1; [contradiction | discriminate].
  - destruct l2; [contradiction | discriminate].
Qed.

(** ** The document and the two ways to send *)

Lemma includes_app_r (pat a b : string) :
  JS.includes pat b = true -> JS.includes pat (a ++ b) = true.
Proof.
  intros H. induction a as [|x a IH]; [exact H|].
  cbn [append JS.includes]. now rewrite IH, orb_true_r.
Qed.

Lemma includes_html_wrapped (body : string) :
  JS.includes "<html"
    (JS.toLowerCase (wrapperHead ++ body ++ wrapperTail)) = true.
Proof. reflexivity. Qed.

Section MailerExtras.

Context {number component : Type}.
Context (stringOfNumber : number -> string)
        (invoke : component -> @Props number -> list (@Child number component)
                  -> @VNode number component).
Context (convert : string -> string)
        (sendMail : Message.t -> Error + SendResult.t).
Variable config : MailerConfig.t.

Local Abbreviation VNode := (@VNode number component).
Local Abbreviation renderHtml := (renderHtml stringOfNumber invoke).
Local Abbreviation compile := (compile stringOfNumber invoke convert).
Local Abbreviation send :=
  (send stringOfNumber invoke convert sendMail config).
Local Abbreviation sendRaw := (sendRaw convert sendMail config).

(** X14: every compiled document holds [<html] in some case, the body's own
    or the wrapper's: the test that decides on the wrapper is true of every
    document [renderHtml] returns. *)
Theorem compiled_document_has_html
        (fuel : nat) (vnode : VNode) (html : string) :
  renderHtml fuel vnode = Some html ->
  JS.includes "<html" (JS.toLowerCase html) = true.
Proof.
  unfold renderHtml.
  destruct (render stringOfNumber invoke fuel (RVNode vnode)) as [body|];
    [|discriminate].
  destruct (JS.includes "<html" (JS.toLowerCase body)) eqn:E;
    intros [= <-].
  - change (JS.includes "<html"
              (JS.toLowerCase doctype ++ JS.toLowerCase body) = true).
    now apply includes_app_r.
  - apply includes_html_wrapped.
Qed.

(** X13: [sendRaw] checks nothing: whatever the options, an empty subject
    included, one message goes to the transport, with the affixes around
    the subject, the HTML as given, and the text as given or else converted
    from the HTML; what the transport answers, receipt or error, is what
    [sendRaw] answers. *)
Theorem sendRaw_always_transmits (options : RawOptions.t) :
  exists message,
    sent (sendRaw options) = [message]
    /\ result (sendRaw options) = sendMail message
    /\ Message.subject message
       = affix (MailerConfig.subjectPrefix config)
           ++ RawOptions.subject options
           ++ affix (MailerConfig.subjectSuffix config)
    /\ Message.html message = RawOptions.html options
    /\ Message.text message
       = match RawOptions.text options with
         | Some text => text
         | None => convert (RawOptions.html options)
         end.
Proof.
  unfold sendRaw.
  match goal with
  | |- context [sendMail ?m] => exists m; destruct (sendMail m) as [e|info]
  end.
  - repeat split.
  - repeat split. now destruct info.
Qed.

(** X12: [send] is [compile] followed by [sendRaw]: once the subject is
    resolved and not empty, [send] does what [sendRaw] does with the
    compiled HTML and text, the resolved subject, and the sender and reply
    address of the options or else of the template. *)
Theorem send_is_compile_then_sendRaw
        {TProps : Type} (fuel : nat) (template : EmailTemplate TProps)
        (options : EmailOptions.t TProps) (compiled : CompiledEmail.t)
        (subject : string) :
  compile fuel template (EmailOptions.props options) = Some compiled ->
  EmailOptions.subject options
    ?? optionalChain (CompiledEmail.meta compiled) EmailMeta.subject
  = Some subject ->
  subject <> "" ->
  send fuel template options
  = Some (sendRaw
            (RawOptions.mk
               (EmailOptions.to options)
               subject
               (CompiledEmail.html compiled)
               (Some (CompiledEmail.text compiled))
               (EmailOptions.from options
                  ?? optionalChain (CompiledEmail.meta compiled)
                       EmailMeta.from)
               (EmailOptions.cc options)
               (EmailOptions.bcc options)
               (EmailOptions.replyTo options
                  ?? optionalChain (CompiledEmail.meta compiled)
                       EmailMeta.replyTo))).
Proof.
  intros Hcompile Hsubject Hnonempty.
  unfold send, sendRaw. rewrite Hcompile. cbv zeta.
  rewrite Hsubject. unfold truthyString.
  apply String.eqb_neq in Hnonempty. rewrite Hnonempty.
  cbn [negb RawOptions.from RawOptions.to RawOptions.cc RawOptions.bcc
       RawOptions.replyTo RawOptions.subject RawOptions.html
       RawOptions.text].
  now destruct (sendMail _).
Qed.

(** X16: a template written with [email]: when the options give no
    subject, the subject written in [email] is the one sent, between the
    affixes; without one there, or with [undefined] or the empty string,
    [send] fails with the subject error and sends nothing. *)
Theorem email_subject_reaches_transport
        {TProps : Type} (fuel : nat) (input : TProps -> EmailInput.t VNode)
        (options : EmailOptions.t TProps) (html : string) :
  renderHtml fuel (EmailInput.body (input (EmailOptions.props options)))
  = Some html ->
  EmailOptions.subject options = None ->
  match EmailInput.subject (input (EmailOptions.props options)) with
  | Given subject =>
      if subject =? ""
      then failsBeforeTransport
             (send fuel (fun props => OfTemplateResult (email (input props)))
                options)
      else transmits
             (send fuel (fun props => OfTemplateResult (email (input props)))
                options)
             (affix (MailerConfig.subjectPrefix config)
                ++ subject ++ affix (MailerConfig.subjectSuffix config))
  | _ =>
      failsBeforeTransport
        (send fuel (fun props => OfTemplateResult (email (input props)))
           options)
  end.
Proof.
  intros Hhtml Hsubject.
  unfold failsBeforeTransport, transmits, send, compile.
  cbn [body meta email].
  rewrite Hhtml. cbv zeta.
  cbn [CompiledEmail.meta CompiledEmail.html CompiledEmail.text].
  rewrite Hsubject.
  destruct (input (EmailOptions.props options))
    as [b [| |subject] from replyTo];
    cbn [EmailInput.subject EmailInput.from EmailInput.replyTo isKey valueOf].
  - destruct (isKey from), (isKey replyTo); reflexivity.
  - destruct (isKey from), (isKey replyTo); reflexivity.
  - cbn [Nat.add Nat.ltb Nat.leb nullish optionalChain EmailMeta.subject].
    unfold truthyString.
    destruct (subject =? ""); cbn [negb]; [reflexivity|].
    destruct (sendMail _);
      (do 2 eexists; split; [reflexivity | split; reflexivity]).
Qed.

End MailerExtras.

(** ** Texts that escaping keeps *)

Lemma length_append (a b : string) :
  String.length (a ++ b) = String.length a + String.length b.
Proof. induction a as [|x a IH]; simpl; [reflexivity | now rewrite IH]. Qed.

Lemma entityOf_plain (c : ascii) :
  needsEscape c = false -> entityOf c = String c "".
Proof.
  unfold needsEscape, entityOf. intros H.
  repeat (apply orb_false_iff in H as [H ?]).
  repeat match goal with
         | E : Ascii.eqb _ _ = false |- _ => rewrite E; clear E
         end.
  reflexivity.
Qed.

Lemma entityOf_longer (c : ascii) :
  needsEscape c = true -> 1 < String.length (entityOf c).
Proof.
  unfold needsEscape, entityOf. intros H.
  destruct (Ascii.eqb c "&"); [simpl; lia|].
  destruct (Ascii.eqb c "<"); [simpl; lia|].
  destruct (Ascii.eqb c ">"); [simpl; lia|].
  destruct (Ascii.eqb c JS.dquote); [simpl; lia|].
  destruct (Ascii.eqb c "'"); [simpl; lia | discriminate H].
Qed.

Lemma entityEncode_length (s : string) :
  String.length s <= String.length (entityEncode s)
  /\ (anyChar needsEscape s = true ->
      String.length s < String.length (entityEncode s)).
Proof.
  induction s as [|c s [IHle IHlt]]; [split; [auto | discriminate]|].
  cbn [entityEncode anyChar]. rewrite length_append.
  destruct (needsEscape c) eqn:Hc.
  - pose proof (entityOf_longer c Hc). simpl. split; [lia | intros _; lia].
  - rewrite (entityOf_plain c Hc). simpl.
    split; [lia | intros H; specialize (IHlt H); lia].
Qed.

(** X17: escaping changes a text exactly when the text holds one of the
    five characters; any other text is returned as it is. *)
Theorem escapeHtml_keeps_plain_text (s : string) :
  escapeHtml s = s <-> anyChar needsEscape s = false.
Proof.
  rewrite escapeHtml_entityEncode. split.
  - intros H. destruct (anyChar needsEscape s) eqn:E; [|reflexivity].
    apply (proj2 (entityEncode_length s)) in E.
    rewrite H in E. lia.
  - induction s as [|c s IH]; [reflexivity|].
    cbn [anyChar entityEncode]. intros H.
    apply orb_false_iff in H as [Hc Hs].
    now rewrite (entityOf_plain c Hc), (IH Hs).
Qed.

(** ** The further properties at concrete inputs *)

Lemma escapeHtml_injective_witness : "a<b & c" = "a<b & c".
Proof. exact (escapeHtml_injective "a<b & c" "a<b & c" eq_refl). Defined.

Lemma nested_array_flattens_witness :
  Demo.renderChildren 4
    [CString "a"; CString "b"; CVNode (Demo.element "br" [] []); CString "c"]
  = Some "ab<br />c".
Proof.
  exact (nested_array_flattens Demo.stringOfNumber Demo.invoke 3
           [CString "a"]
           [CString "b"; CVNode (Demo.element "br" [] [])]
           [CString "c"] "ab<br />c" eq_refl).
Defined.

Lemma reserved_and_unsupported_entries_dropped_witness :
  Demo.renderAttrs [("id", PString "x"); ("ref", POther); ("title", PString "t")]
  = Demo.renderAttrs [("id", PString "x"); ("title", PString "t")].
Proof.
  exact (reserved_and_unsupported_entries_dropped Demo.stringOfNumber
           "ref" POther [("id", PString "x")] [("title", PString "t")]
           (or_introl (or_intror (or_intror (or_introl eq_refl))))).
Defined.

Lemma intrinsic_vnode_renders_witness :
  exists html,
    Demo.renderToString 4 (RVNode Demo.nestedHtml) = Some html
    /\ Demo.renderToString 9 (RVNode Demo.nestedHtml) = Some html.
Proof.
  refine (intrinsic_vnode_renders Demo.stringOfNumber Demo.invoke
            Demo.nestedHtml 9 eq_refl _).
  simpl. lia.
Defined.

Lemma recipients_in_sequence_witness :
  formatEmailAddresses
    (Several [Address "a@example.com"; Named "Bob" "b@example.com"])
  = "a@example.com, Bob <b@example.com>".
Proof.
  refine (recipients_in_sequence [Address "a@example.com"]
            [Named "Bob" "b@example.com"] _ _); discriminate.
Defined.

Lemma send_is_compile_then_sendRaw_witness :
  Demo.send 3 Demo.withSubject (Demo.optionsWith None)
  = Some (sendRaw Demo.convert Demo.sendMail Demo.config
            (RawOptions.mk (Single (Address "recipient@example.com"))
               "From Template"
               (wrapperHead ++ "<p>Test</p>" ++ wrapperTail)
               (Some (wrapperHead ++ "<p>Test</p>" ++ wrapperTail))
               None None None None)).
Proof.
  refine (send_is_compile_then_sendRaw Demo.stringOfNumber Demo.invoke
            Demo.convert Demo.sendMail Demo.config 3 Demo.withSubject
            (Demo.optionsWith None)
            (CompiledEmail.mk (wrapperHead ++ "<p>Test</p>" ++ wrapperTail)
               (wrapperHead ++ "<p>Test</p>" ++ wrapperTail)
               (Some (EmailMeta.mk (Some "From Template") None None)))
            "From Template" eq_refl eq_refl _).
  discriminate.
Defined.

Lemma compiled_document_has_html_witness :
  JS.includes "<html"
    (JS.toLowerCase (wrapperHead ++ "<p>Test</p>" ++ wrapperTail)) = true
  /\ JS.includes "<html"
       (JS.toLowerCase (doctype ++ "<HTML></HTML>")) = true.
Proof.
  split.
  - exact (compiled_document_has_html Demo.stringOfNumber Demo.invoke 2
             (Demo.element "p" [] [CString "Test"]) _ eq_refl).
  - exact (compiled_document_has_html Demo.stringOfNumber Demo.invoke 2
             (Demo.element "HTML" [] []) _ eq_refl).
Defined.


Lemma email_subject_reaches_transport_witness :
  transmits
    (Demo.send 3
       (fun _ : unit =>
          OfTemplateResult
            (email (EmailInput.mk (Demo.element "p" [] [CString "Test"])
                      (Given "Hi") Missing Missing)))
       (Demo.optionsWith None))
    "[App] Hi"
  /\ failsBeforeTransport
       (Demo.send 3
          (fun _ : unit =>
             OfTemplateResult
               (email (EmailInput.mk (Demo.element "p" [] [CString "Test"])
                         Undefined (Given (Address "a@example.com")) Missing)))
          (Demo.optionsWith None)).
Proof.
  split.
  - exact (email_subject_reaches_transport Demo.stringOfNumber Demo.invoke
             Demo.convert Demo.sendMail Demo.config 3
             (fun _ : unit =>
                EmailInput.mk (Demo.element "p" [] [CString "Test"])
                  (Given "Hi") Missing Missing)
             (Demo.optionsWith None) _ eq_refl eq_refl).
  - exact (email_subject_reaches_transport Demo.stringOfNumber Demo.invoke
             Demo.convert Demo.sendMail Demo.config 3
             (fun _ : unit =>
                EmailInput.mk (Demo.element "p" [] [CString "Test"])
                  Undefined (Given (Address "a@example.com")) Missing)
             (Demo.optionsWith None) _ eq_refl eq_refl).
Defined.
